(** * Differential privacy chapter (ch3.ipynb): counting queries and the
      Laplace mechanism

    The notebook runs four code cells against a census table [adult]:

      - In[6]   [adult[adult['Age'] >= 40].shape[0]]
      - In[21]  [sensitivity = 1; epsilon = 0.1;
                 adult[adult['Age'] >= 40].shape[0]
                   + np.random.laplace(loc=0, scale=sensitivity/epsilon)]
      - In[28]  [karries_row = adult[adult['Name'] == 'Karrie Trusslove'];
                 karries_row[karries_row['Target'] == '<=50K'].shape[0]]
      - In[29]  the query of In[28] plus a Laplace sample.

    The table is a list of rows, a boolean mask is a list of booleans aligned
    with the rows, counts are integers, and Python floats are idealised as
    real numbers (rounding is not modelled).  Where the sign of a zero
    decides between a result and an error, a second model of the mechanism
    keeps the negative zero apart.  The kernel is a record holding the
    global names the cells use and the state of NumPy's global random
    generator, as they are once the loading cell has run; a cell is a
    function from kernel to result and kernel. *)

From Stdlib Require Import List ZArith Lia String Bool Reals Lra.
Import ListNotations.

Set Implicit Arguments.

(** ** The table and pandas selection *)

Record Row := mkRow { Name : string; Age : Z; Target : string }.

Definition DataFrame := list Row.
Definition Series (A : Type) := list A.

(** [df['col']] *)
Definition column {A : Type} (col : Row -> A) (df : DataFrame) : Series A :=
  map col df.

(** [series >= k] on an integer column *)
Definition ge_scalar (s : Series Z) (k : Z) : Series bool :=
  map (fun a => Z.geb a k) s.

(** [series == k] on a string column *)
Definition eq_scalar (s : Series string) (k : string) : Series bool :=
  map (fun a => String.eqb a k) s.

(** [df[mask]]: the rows whose mask entry is [True], in table order.  Every
    mask in the notebook is computed from the frame it selects from, so the
    two always have the same length; on a length mismatch (pandas refuses
    it) the selection here stops at the shorter one. *)
Fixpoint getitem (df : DataFrame) (mask : Series bool) : DataFrame :=
  match df, mask with
  | r :: df', b :: mask' =>
      if b then r :: getitem df' mask' else getitem df' mask'
  | _, _ => []
  end.

(** [df.shape[0]] *)
Definition shape0 (df : DataFrame) : Z := Z.of_nat (List.length df).

(** The counting query of the chapter, [d[p(d)].shape[0]], for a row-wise
    predicate [p]. *)
Definition count_matching (dataset : DataFrame) (predicate : Row -> bool) : Z :=
  shape0 (getitem dataset (column predicate dataset)).

(** In[6]: [adult[adult['Age'] >= 40].shape[0]] *)
Definition age_query (adult : DataFrame) : Z :=
  shape0 (getitem adult (ge_scalar (column Age adult) 40)).

(** In[28], first line. *)
Definition select_karrie (adult : DataFrame) : DataFrame :=
  getitem adult (eq_scalar (column Name adult) "Karrie Trusslove").

(** In[28], second line, on the frame bound by the first. *)
Definition target_count (karries_row : DataFrame) : Z :=
  shape0 (getitem karries_row (eq_scalar (column Target karries_row) "<=50K")).

Definition target_query (adult : DataFrame) : Z :=
  target_count (select_karrie adult).

(** The row predicates behind the three masks. *)
Definition age_ge_40 (r : Row) : bool := Z.geb (Age r) 40.
Definition is_karrie (r : Row) : bool := String.eqb (Name r) "Karrie Trusslove".
Definition target_le_50K (r : Row) : bool := String.eqb (Target r) "<=50K".

(** Two tables are neighbours when they differ in the record of exactly one
    position. *)
Inductive neighboring : DataFrame -> DataFrame -> Prop :=
| neighboring_here : forall r r' rest,
    r <> r' -> neighboring (r :: rest) (r' :: rest)
| neighboring_later : forall r x x',
    neighboring x x' -> neighboring (r :: x) (r :: x').

(** Sample rows and tables used in the examples. *)
Definition karrie_low : Row := mkRow "Karrie Trusslove" 39 "<=50K".
Definition karrie_high : Row := mkRow "Karrie Trusslove" 39 ">50K".
Definition senior : Row := mkRow "Brandise Tripony" 50 "<=50K".
Definition junior : Row := mkRow "Brenn McNeely" 38 "<=50K".

Definition small_census : DataFrame := [karrie_low; senior; junior].
Definition adjacent_census : DataFrame := [karrie_low; junior; junior].
Definition duplicated_name_census : DataFrame := [karrie_low; senior; karrie_low].
(** ** The kernel: global names and NumPy's global generator *)

Local Open Scope R_scope.

Inductive exn := NameError | ZeroDivisionError | ValueError.

Inductive result (A : Type) :=
| Return (a : A)
| Raise (e : exn).
Arguments Return {A} a.
Arguments Raise {A} e.

(** NumPy's global [RandomState], seen as the sequence of uniform variates
    that its sampler accepts (the sampler redraws a variate equal to 0, so
    the accepted ones lie strictly between 0 and 1) and the number already
    consumed.  The record itself puts no condition on the variates; the
    ones NumPy can deliver are singled out by [deliverable] below. *)
Record RandomState := mkRandomState {
  variates : nat -> R;
  consumed : nat
}.

(** The global names of the session, once the loading cell has run:
    [adult] is bound to the table it read, and the other three are unbound
    until a cell assigns them.  A session in which the loading cell has not
    run, where every cell stops with [NameError] at [adult] or [np], is not
    a value of this record. *)
Record Kernel := mkKernel {
  adult : DataFrame;
  karries_row : option DataFrame;
  sensitivity : option R;
  epsilon : option R;
  np_random : RandomState
}.

Definition M (A : Type) : Type := Kernel -> result A * Kernel.

Definition ret {A : Type} (a : A) : M A := fun k => (Return a, k).
Definition raise {A : Type} (e : exn) : M A := fun k => (Raise e, k).
Definition bind {A B : Type} (m : M A) (f : A -> M B) : M B :=
  fun k =>
    match m k with
    | (Return a, k') => f a k'
    | (Raise e, k') => (Raise e, k')
    end.

Notation "x <- m ;; f" := (bind m (fun x => f))
  (at level 61, m at next level, right associativity).
Notation "m ;;; f" := (bind m (fun _ => f))
  (at level 61, right associativity).

(** Reading a global name; an unbound name raises [NameError]. *)
Definition load {A : Type} (name : Kernel -> option A) : M A :=
  fun k =>
    match name k with
    | Some a => (Return a, k)
    | None => (Raise NameError, k)
    end.

(** Reading [adult], which the kernel record holds bound. *)
Definition load_adult : M DataFrame := fun k => (Return (adult k), k).

(** Assignments to the three names the cells bind. *)
Definition store_sensitivity (v : R) : M unit :=
  fun k => (Return tt,
            mkKernel (adult k) (karries_row k) (Some v) (epsilon k) (np_random k)).
Definition store_epsilon (v : R) : M unit :=
  fun k => (Return tt,
            mkKernel (adult k) (karries_row k) (sensitivity k) (Some v) (np_random k)).
Definition store_karries_row (df : DataFrame) : M unit :=
  fun k => (Return tt,
            mkKernel (adult k) (Some df) (sensitivity k) (epsilon k) (np_random k)).

(** Python's [a / b] on numbers: a zero divisor raises. *)
Definition truediv (a b : R) : M R :=
  if Req_dec_T b 0 then raise ZeroDivisionError else ret (a / b).

(** NumPy's transform of one accepted uniform variate [U] into a Laplace
    variate (library code, not part of the notebook):
      [U >= 0.5] gives [loc - scale * log(2 - U - U)],
      otherwise      [loc + scale * log(U + U)]. *)
Definition random_laplace (loc scale U : R) : R :=
  if Rle_dec (1 / 2) U
  then loc - scale * ln (2 - U - U)
  else loc + scale * ln (U + U).

Definition advance (g : RandomState) : RandomState :=
  mkRandomState (variates g) (S (consumed g)).

Definition next_variate (k : Kernel) : R :=
  variates (np_random k) (consumed (np_random k)).

(** The kernel after the generator has delivered one variate. *)
Definition consume (k : Kernel) : Kernel :=
  mkKernel (adult k) (karries_row k) (sensitivity k) (epsilon k)
           (advance (np_random k)).

(** [np.random.laplace(loc, scale)]: a negative scale is refused with
    [ValueError] before anything is drawn; otherwise one variate of the
    global generator is consumed and transformed.  NumPy tests the sign bit
    of the scale, so it refuses the negative zero as well; a real number
    cannot tell the two zeros apart, and [np_random_laplace_float] below is
    the sampler with that case kept. *)
Definition np_random_laplace (loc scale : R) : M R :=
  fun k =>
    if Rlt_dec scale 0 then (Raise ValueError, k)
    else (Return (random_laplace loc scale (next_variate k)), consume k).

(** The Laplace mechanism as the cells write it:
    [true_value + np.random.laplace(loc=0, scale=sensitivity/epsilon)].
    The left operand is already a value; the scale is computed, the sample
    drawn, and the two are added. *)
Definition laplace_mechanism (true_value sens eps : R) : M R :=
  scale <- truediv sens eps ;;
  noise <- np_random_laplace 0 scale ;;
  ret (true_value + noise).

(** The result of In[6] as the number In[21] adds the sample to. *)
Definition age_query_value (df : DataFrame) : R := IZR (age_query df).

(** The counting query evaluated in the kernel, on the table bound to
    [adult]. *)
Definition count_adult (predicate : Row -> bool) : M Z :=
  df <- load_adult ;;
  ret (shape0 (getitem df (column predicate df))).

(** In[6] *)
Definition cell_6 : M Z :=
  df <- load_adult ;;
  ret (shape0 (getitem df (ge_scalar (column Age df) 40))).

(** In[21] *)
Definition cell_21 : M R :=
  store_sensitivity 1 ;;;
  store_epsilon (1 / 10) ;;;
  df <- load_adult ;;
  let n := shape0 (getitem df (ge_scalar (column Age df) 40)) in
  s <- load sensitivity ;;
  e <- load epsilon ;;
  laplace_mechanism (IZR n) s e.

(** In[28] *)
Definition cell_28 : M Z :=
  df <- load_adult ;;
  store_karries_row (getitem df (eq_scalar (column Name df) "Karrie Trusslove")) ;;;
  kr <- load karries_row ;;
  ret (shape0 (getitem kr (eq_scalar (column Target kr) "<=50K"))).

(** In[29] *)
Definition cell_29 : M R :=
  store_sensitivity 1 ;;;
  store_epsilon (1 / 10) ;;;
  df <- load_adult ;;
  store_karries_row (getitem df (eq_scalar (column Name df) "Karrie Trusslove")) ;;;
  kr <- load karries_row ;;
  let n := shape0 (getitem kr (eq_scalar (column Target kr) "<=50K")) in
  s <- load sensitivity ;;
  e <- load epsilon ;;
  laplace_mechanism (IZR n) s e.

(** ** The Laplace distribution *)

(** Distribution function of the Laplace distribution with location [loc]
    and scale [b > 0]. *)
Definition laplace_cdf (loc b t : R) : R :=
  if Rlt_dec t loc
  then exp ((t - loc) / b) / 2
  else 1 - exp (- (t - loc) / b) / 2.

(** A fresh kernel: only [adult] is bound, and the generator will deliver
    the given variates. *)
Definition fresh_kernel (df : DataFrame) (us : nat -> R) : Kernel :=
  mkKernel df None None None (mkRandomState us 0).

Definition quarter_variates : nat -> R := fun _ => 1 / 4.

(** The kernel after [sensitivity = 1; epsilon = 0.1], and after
    [karries_row = ...]. *)
Definition with_parameters (k : Kernel) : Kernel :=
  mkKernel (adult k) (karries_row k) (Some 1) (Some (1 / 10)) (np_random k).
Definition with_karries_row (k : Kernel) : Kernel :=
  mkKernel (adult k) (Some (select_karrie (adult k)))
           (sensitivity k) (epsilon k) (np_random k).

Definition small_kernel : Kernel := fresh_kernel small_census quarter_variates.
(** ** The cells together *)

(** Both row predicates hold. *)
Definition both (p q : Row -> bool) (r : Row) : bool := p r && q r.

(** The variate the generator delivers [i] draws from now. *)
Definition nth_variate (k : Kernel) (i : nat) : R :=
  variates (np_random k) (consumed (np_random k) + i).

(** The four code cells run in notebook order, with the four displayed
    results. *)
Definition run_notebook : M (Z * R * Z * R) :=
  o6 <- cell_6 ;;
  o21 <- cell_21 ;;
  o28 <- cell_28 ;;
  o29 <- cell_29 ;;
  ret (o6, o21, o28, o29).

(** More sample tables and kernels. *)
Definition flipped_census : DataFrame := [karrie_high; senior; junior].
Definition three_quarter_variates : nat -> R := fun _ => 3 / 4.
Definition mirrored_kernel : Kernel :=
  fresh_kernel small_census three_quarter_variates.

(** ** The sign of a zero *)

(** A Python float as far as the sign of a zero matters: a real number,
    where 0 stands for the positive zero (the value the integer 0 converts
    to), or the negative zero [-0.0]. *)
Inductive pyfloat :=
| Finite (v : R)
| NegZero.

Definition float_value (x : pyfloat) : R :=
  match x with
  | Finite v => v
  | NegZero => 0
  end.

(** [np.signbit]. *)
Definition signbit (x : pyfloat) : bool :=
  match x with
  | Finite v => if Rlt_dec v 0 then true else false
  | NegZero => true
  end.

(** The quotient by a divisor that is not zero: a zero dividend gives a
    zero whose sign is the product of the two signs. *)
Definition float_div (a b : pyfloat) : pyfloat :=
  if Req_dec_T (float_value a) 0
  then (if xorb (signbit a) (signbit b) then NegZero else Finite 0)
  else Finite (float_value a / float_value b).

(** Python's [a / b]: a zero divisor of either sign raises. *)
Definition truediv_float (a b : pyfloat) : M pyfloat :=
  if Req_dec_T (float_value b) 0
  then raise ZeroDivisionError
  else ret (float_div a b).

(** [np.random.laplace(loc, scale)] with the sign-bit test on the scale. *)
Definition np_random_laplace_float (loc : R) (scale : pyfloat) : M R :=
  fun k =>
    if signbit scale then (Raise ValueError, k)
    else (Return (random_laplace loc (float_value scale) (next_variate k)),
          consume k).

(** The mechanism with the sign of a zero kept in its two parameters. *)
Definition laplace_mechanism_float
  (true_value : R) (sens eps : pyfloat) : M R :=
  scale <- truediv_float sens eps ;;
  noise <- np_random_laplace_float 0 scale ;;
  ret (true_value + noise).

(** ** The variates the generator delivers *)

(** NumPy makes a uniform variate from 53 random bits: a multiple of
    [2^-53] in [0, 1), of which the sampler accepts the ones that are not
    zero. *)
Definition smallest_variate : R := / (2 ^ 53).

Definition deliverable (U : R) : Prop :=
  exists n : Z, (0 < n < 2 ^ 53)%Z /\ U = IZR n * smallest_variate.

Definition smallest_variates : nat -> R := fun _ => smallest_variate.

(** * Properties *)

(** ** Selection and counting *)

Local Open Scope Z_scope.

Lemma getitem_column (p : Row -> bool) (df : DataFrame) :
  getitem df (column p df) = filter p df.
Proof.
  induction df as [|r df IH]; simpl; [reflexivity|].
  destruct (p r); rewrite IH; reflexivity.
Qed.

Lemma count_matching_filter (p : Row -> bool) (df : DataFrame) :
  count_matching df p = Z.of_nat (List.length (filter p df)).
Proof. unfold count_matching, shape0. now rewrite getitem_column. Qed.

Lemma count_matching_nil (p : Row -> bool) : count_matching [] p = 0.
Proof. reflexivity. Qed.

Lemma count_matching_cons (p : Row -> bool) (r : Row) (df : DataFrame) :
  count_matching (r :: df) p =
  (if p r then 1 else 0) + count_matching df p.
Proof.
  rewrite !count_matching_filter. simpl.
  destruct (p r); simpl List.length; lia.
Qed.

Lemma age_mask (df : DataFrame) :
  ge_scalar (column Age df) 40 = column age_ge_40 df.
Proof. unfold ge_scalar, column. now rewrite map_map. Qed.

Lemma name_mask (df : DataFrame) :
  eq_scalar (column Name df) "Karrie Trusslove" = column is_karrie df.
Proof. unfold eq_scalar, column. now rewrite map_map. Qed.

Lemma target_mask (df : DataFrame) :
  eq_scalar (column Target df) "<=50K" = column target_le_50K df.
Proof. unfold eq_scalar, column. now rewrite map_map. Qed.

Lemma age_query_count (df : DataFrame) :
  age_query df = count_matching df age_ge_40.
Proof. unfold age_query, count_matching. now rewrite age_mask. Qed.

Lemma select_karrie_filter (df : DataFrame) :
  select_karrie df = filter is_karrie df.
Proof. unfold select_karrie. now rewrite name_mask, getitem_column. Qed.

Lemma target_count_count (kr : DataFrame) :
  target_count kr = count_matching kr target_le_50K.
Proof. unfold target_count, count_matching. now rewrite target_mask. Qed.

Lemma shape0_select_karrie (df : DataFrame) :
  shape0 (select_karrie df) = count_matching df is_karrie.
Proof. unfold count_matching, select_karrie. now rewrite name_mask. Qed.

Lemma count_matching_bounds (p : Row -> bool) (df : DataFrame) :
  0 <= count_matching df p <= shape0 df.
Proof.
  induction df as [|r df IH].
  - rewrite count_matching_nil. unfold shape0. simpl. lia.
  - rewrite count_matching_cons. unfold shape0 in *. simpl List.length.
    destruct (p r); lia.
Qed.

Lemma neighboring_change (p : Row -> bool) (x x' : DataFrame) :
  neighboring x x' ->
  Z.abs (count_matching x p - count_matching x' p) <= 1.
Proof.
  induction 1 as [r r' rest _|r x x' _ IH].
  - rewrite !count_matching_cons. destruct (p r), (p r'); lia.
  - rewrite !count_matching_cons. destruct (p r); lia.
Qed.

Lemma neighboring_shape0 (x x' : DataFrame) :
  neighboring x x' -> shape0 x = shape0 x'.
Proof.
  unfold shape0. induction 1; simpl List.length; lia.
Qed.

(** C3: between two neighbouring tables the counting query changes by at
    most 1, whatever the predicate; 1 is the least bound that holds for all
    predicates, and it is attained whenever the predicate separates the two
    records that differ.  Counting queries have sensitivity 1. *)
Theorem count_matching_sensitivity :
  (forall (p : Row -> bool) (x x' : DataFrame),
      neighboring x x' ->
      Z.abs (count_matching x p - count_matching x' p) <= 1)
  /\ (forall bound : Z,
      (forall (p : Row -> bool) (x x' : DataFrame),
          neighboring x x' ->
          Z.abs (count_matching x p - count_matching x' p) <= bound) ->
      1 <= bound)
  /\ (forall (p : Row -> bool) (r r' : Row) (rest : DataFrame),
      p r = true -> p r' = false ->
      neighboring (r :: rest) (r' :: rest) /\
      count_matching (r :: rest) p - count_matching (r' :: rest) p = 1).
Proof.
  split; [exact neighboring_change|split].
  - intros bound H.
    specialize (H age_ge_40 [senior] [junior]).
    apply H. constructor. discriminate.
  - intros p r r' rest Hr Hr'. split.
    + constructor. intro E. rewrite E in Hr. congruence.
    + rewrite !count_matching_cons, Hr, Hr'. lia.
Qed.

Lemma count_matching_sensitivity_witness :
  neighboring small_census adjacent_census /\
  Z.abs (count_matching small_census age_ge_40
         - count_matching adjacent_census age_ge_40) <= 1.
Proof.
  assert (N : neighboring small_census adjacent_census).
  { apply neighboring_later, neighboring_here. discriminate. }
  split; [exact N|].
  exact (proj1 count_matching_sensitivity age_ge_40 _ _ N).
Defined.

(** C9, as stated, fails on a table that holds two rows with the queried
    name: the single-person query then returns 2. *)
Lemma target_query_duplicated_name :
  select_karrie duplicated_name_census = [karrie_low; karrie_low] /\
  target_query duplicated_name_census = 2 /\
  ~ (target_query duplicated_name_census = 0 \/
     target_query duplicated_name_census = 1).
Proof.
  split; [reflexivity|]. split; [reflexivity|].
  intros [H|H]; vm_compute in H; discriminate.
Qed.

(** C9 (amended): the counting query returns an integer between 0 and the
    number of rows of the table; the single-person query returns at most the
    number of rows that carry the queried name, and when the table holds at
    most one such row it returns 0 or 1. *)
Theorem count_matching_range :
  (forall (p : Row -> bool) (df : DataFrame),
      0 <= count_matching df p <= shape0 df)
  /\ (forall adult : DataFrame,
      0 <= target_query adult <= shape0 (select_karrie adult) /\
      shape0 (select_karrie adult) <= shape0 adult)
  /\ (forall adult : DataFrame,
      shape0 (select_karrie adult) <= 1 ->
      target_query adult = 0 \/ target_query adult = 1).
Proof.
  split; [exact count_matching_bounds|].
  assert (B : forall adult,
             0 <= target_query adult <= shape0 (select_karrie adult)).
  { intro adult. unfold target_query. rewrite target_count_count.
    apply count_matching_bounds. }
  split.
  - intro adult. split; [apply B|].
    rewrite shape0_select_karrie. apply count_matching_bounds.
  - intros adult H. specialize (B adult). lia.
Qed.

Lemma count_matching_range_witness :
  shape0 (select_karrie small_census) <= 1 /\
  (target_query small_census = 0 \/ target_query small_census = 1).
Proof.
  assert (H : shape0 (select_karrie small_census) <= 1)
    by (vm_compute; discriminate).
  split; [exact H|].
  exact (proj2 (proj2 count_matching_range) small_census H).
Defined.

(** C10: selecting the rows that satisfy [p] and then counting those that
    satisfy [q] never gives more than counting the rows that satisfy [p];
    the second filter can only lower the count.  The two-stage query of
    In[28] is the instance with the name and target predicates. *)
Theorem count_matching_two_stage :
  (forall (p q : Row -> bool) (df : DataFrame),
      count_matching (getitem df (column p df)) q <= count_matching df p)
  /\ (forall adult : DataFrame,
      target_query adult <= count_matching adult is_karrie).
Proof.
  split.
  - intros p q df.
    pose proof (count_matching_bounds q (getitem df (column p df))) as H.
    unfold count_matching at 2. lia.
  - intro adult. unfold target_query. rewrite target_count_count.
    rewrite <- shape0_select_karrie.
    apply count_matching_bounds.
Qed.

(** The queries on the sample table. *)
Example age_query_small : age_query small_census = 1.
Proof. reflexivity. Qed.

Example select_karrie_small : select_karrie small_census = [karrie_low].
Proof. reflexivity. Qed.

Example target_query_small : target_query small_census = 1.
Proof. reflexivity. Qed.

Example target_query_high :
  target_query [karrie_high; senior; junior] = 0.
Proof. reflexivity. Qed.

(** ** Evaluation of the mechanism *)

Local Open Scope R_scope.

Lemma truediv_zero (a : R) (k : Kernel) :
  truediv a 0 k = (Raise ZeroDivisionError, k).
Proof.
  unfold truediv. destruct (Req_dec_T 0 0) as [_|N]; [reflexivity|].
  exfalso. apply N. reflexivity.
Qed.

Lemma truediv_nonzero (a b : R) (k : Kernel) :
  b <> 0 -> truediv a b k = (Return (a / b), k).
Proof.
  intro Hb. unfold truediv.
  destruct (Req_dec_T b 0) as [E|_]; [contradiction|reflexivity].
Qed.

Lemma np_random_laplace_negative (loc scale : R) (k : Kernel) :
  scale < 0 -> np_random_laplace loc scale k = (Raise ValueError, k).
Proof.
  intro H. unfold np_random_laplace.
  destruct (Rlt_dec scale 0) as [_|N]; [reflexivity|contradiction].
Qed.

Lemma np_random_laplace_nonneg (loc scale : R) (k : Kernel) :
  0 <= scale ->
  np_random_laplace loc scale k =
  (Return (random_laplace loc scale (next_variate k)), consume k).
Proof.
  intro H. unfold np_random_laplace.
  destruct (Rlt_dec scale 0) as [N|_]; [lra|reflexivity].
Qed.

Lemma mechanism_zero_epsilon (tv s : R) (k : Kernel) :
  laplace_mechanism tv s 0 k = (Raise ZeroDivisionError, k).
Proof.
  unfold laplace_mechanism, bind. now rewrite truediv_zero.
Qed.

Lemma mechanism_negative_scale (tv s e : R) (k : Kernel) :
  e <> 0 -> s / e < 0 ->
  laplace_mechanism tv s e k = (Raise ValueError, k).
Proof.
  intros He Hs. unfold laplace_mechanism, bind.
  rewrite truediv_nonzero by assumption.
  now rewrite np_random_laplace_negative.
Qed.

Lemma mechanism_nonneg_scale (tv s e : R) (k : Kernel) :
  e <> 0 -> 0 <= s / e ->
  laplace_mechanism tv s e k =
  (Return (tv + random_laplace 0 (s / e) (next_variate k)), consume k).
Proof.
  intros He Hs. unfold laplace_mechanism, bind.
  rewrite truediv_nonzero by assumption.
  now rewrite np_random_laplace_nonneg.
Qed.

Lemma random_laplace_zero_scale (loc U : R) : random_laplace loc 0 U = loc.
Proof. unfold random_laplace. destruct (Rle_dec (1 / 2) U); ring. Qed.

Lemma div_pos_pos (s e : R) : 0 < s -> 0 < e -> 0 < s / e.
Proof. intros. now apply Rdiv_lt_0_compat. Qed.

Lemma div_neg_neg (s e : R) : s < 0 -> e < 0 -> 0 < s / e.
Proof.
  intros Hs He. replace (s / e) with ((- s) / (- e)) by (field; lra).
  apply Rdiv_lt_0_compat; lra.
Qed.

Lemma div_neg_pos (s e : R) : s < 0 -> 0 < e -> s / e < 0.
Proof.
  intros Hs He. replace (s / e) with (- ((- s) / e)) by (field; lra).
  assert (0 < (- s) / e) by (apply Rdiv_lt_0_compat; lra). lra.
Qed.

Lemma div_pos_neg (s e : R) : 0 < s -> e < 0 -> s / e < 0.
Proof.
  intros Hs He. replace (s / e) with (- (s / (- e))) by (field; lra).
  assert (0 < s / (- e)) by (apply Rdiv_lt_0_compat; lra). lra.
Qed.

Lemma random_laplace_quarter (scale : R) :
  random_laplace 0 scale (1 / 4) = scale * ln (1 / 2).
Proof.
  unfold random_laplace. destruct (Rle_dec (1 / 2) (1 / 4)) as [H|_]; [lra|].
  replace (1 / 4 + 1 / 4) with (1 / 2) by lra. ring.
Qed.

(** ** The distribution of the sample *)

Lemma exp_le_mono (x y : R) : x <= y -> exp x <= exp y.
Proof.
  intros [H|H]; [left; now apply exp_increasing|subst; right; reflexivity].
Qed.

Lemma exp_le_iff (x y : R) : exp x <= exp y <-> x <= y.
Proof.
  split; [|apply exp_le_mono].
  intro H. destruct (Rle_or_lt x y) as [L|L]; [exact L|].
  apply exp_increasing in L. lra.
Qed.

Lemma ln_le_exp (w y : R) : 0 < w -> (ln w <= y <-> w <= exp y).
Proof.
  intro Hw. rewrite <- (exp_ln w Hw) at 2. symmetry. apply exp_le_iff.
Qed.

Lemma exp_le_ln (w y : R) : 0 < w -> (y <= ln w <-> exp y <= w).
Proof.
  intro Hw. rewrite <- (exp_ln w Hw) at 2. symmetry. apply exp_le_iff.
Qed.

Lemma exp_nonpos_le_1 (y : R) : y <= 0 -> exp y <= 1.
Proof. intro H. rewrite <- exp_0. now apply exp_le_mono. Qed.

Lemma exp_neg_lt_1 (y : R) : y < 0 -> exp y < 1.
Proof. intro H. rewrite <- exp_0. now apply exp_increasing. Qed.

Lemma random_laplace_shift (tv scale U : R) :
  tv + random_laplace 0 scale U = random_laplace tv scale U.
Proof. unfold random_laplace. destruct (Rle_dec (1 / 2) U); ring. Qed.

Section LaplaceDistribution.

(** The scale of the distribution, positive throughout. *)
Variable b : R.
Hypothesis b_pos : 0 < b.

Lemma scaled_le (y L : R) : b * L <= b * y <-> L <= y.
Proof.
  split; intro H.
  - now apply Rmult_le_reg_l with b.
  - now apply Rmult_le_compat_l; [left|].
Qed.

(** The sample transformed from the variate [U] is at most [t] exactly
    when [U] is at most the Laplace distribution function at [t]: for a
    uniform variate the sample has the Laplace distribution. *)
Lemma random_laplace_le (loc U t : R) :
  0 < U < 1 ->
  (random_laplace loc b U <= t <-> U <= laplace_cdf loc b t).
Proof.
  intros [U0 U1]. unfold random_laplace, laplace_cdf.
  set (y := (t - loc) / b).
  assert (Ey : t = loc + b * y) by (unfold y; field; lra).
  replace (- (t - loc) / b) with (- y) by (unfold y; field; lra).
  destruct (Rle_dec (1 / 2) U) as [Hu|Hu];
    destruct (Rlt_dec t loc) as [Ht|Ht].
  - assert (L : ln (2 - U - U) <= 0)
      by (apply ln_le_exp; [lra|rewrite exp_0; lra]).
    assert (Y : y < 0) by (apply (Rmult_lt_reg_l b); [lra|]; lra).
    pose proof (exp_neg_lt_1 Y).
    split; intro H0; exfalso.
    + assert (0 <= b * - ln (2 - U - U)) by (apply Rmult_le_pos; lra). lra.
    + lra.
  - rewrite Ey.
    transitivity (- y <= ln (2 - U - U)).
    + rewrite <- (scaled_le (ln (2 - U - U)) (- y)). split; intro; lra.
    + rewrite exp_le_ln by lra. split; intro; lra.
  - rewrite Ey.
    transitivity (ln (U + U) <= y).
    + rewrite <- (scaled_le y (ln (U + U))). split; intro; lra.
    + rewrite ln_le_exp by lra. split; intro; lra.
  - assert (L : ln (U + U) <= 0)
      by (apply ln_le_exp; [lra|rewrite exp_0; lra]).
    assert (Y : 0 <= y).
    { apply (Rmult_le_reg_l b); [lra|]. lra. }
    assert (exp (- y) <= 1) by (apply exp_nonpos_le_1; lra).
    split; intro H0.
    + lra.
    + assert (0 <= b * - ln (U + U)) by (apply Rmult_le_pos; lra). lra.
Qed.

End LaplaceDistribution.

(** ** The mechanism on valid parameters *)



(** ** A sensitivity of zero *)

Lemma signbit_finite_nonneg (v : R) : 0 <= v -> signbit (Finite v) = false.
Proof.
  intro H. simpl. destruct (Rlt_dec v 0) as [N|_]; [lra|reflexivity].
Qed.

Lemma signbit_finite_neg (v : R) : v < 0 -> signbit (Finite v) = true.
Proof.
  intro H. simpl. destruct (Rlt_dec v 0) as [_|N]; [reflexivity|contradiction].
Qed.

Lemma truediv_float_nonzero (a b : pyfloat) (k : Kernel) :
  float_value b <> 0 -> truediv_float a b k = (Return (float_div a b), k).
Proof.
  intro Hb. unfold truediv_float.
  destruct (Req_dec_T (float_value b) 0) as [E|_]; [contradiction|reflexivity].
Qed.

Lemma float_div_zero (e : R) : 0 < e -> float_div (Finite 0) (Finite e) = Finite 0.
Proof.
  intro He. unfold float_div. simpl float_value.
  destruct (Req_dec_T 0 0) as [_|N]; [|exfalso; apply N; reflexivity].
  now rewrite !signbit_finite_nonneg by lra.
Qed.

Lemma float_div_neg_zero (e : R) : 0 < e -> float_div NegZero (Finite e) = NegZero.
Proof.
  intro He. unfold float_div. simpl float_value.
  destruct (Req_dec_T 0 0) as [_|N]; [|exfalso; apply N; reflexivity].
  now rewrite signbit_finite_nonneg by lra.
Qed.

(** Away from a negative zero the two models of the mechanism agree: on
    real parameters the mechanism with signs is the mechanism on reals,
    except for a sensitivity of zero divided by a negative epsilon, whose
    scale is the negative zero. *)
Lemma laplace_mechanism_float_real (tv s e : R) (k : Kernel) :
  ~ (s = 0 /\ e < 0) ->
  laplace_mechanism_float tv (Finite s) (Finite e) k
  = laplace_mechanism tv s e k.
Proof.
  intro H. unfold laplace_mechanism_float, laplace_mechanism, bind.
  destruct (Req_dec_T e 0) as [E|E].
  - subst e. rewrite truediv_zero. unfold truediv_float.
    cbn [float_value].
    destruct (Req_dec_T 0 0) as [_|N]; [reflexivity|].
    exfalso. apply N. reflexivity.
  - rewrite truediv_nonzero by assumption.
    rewrite truediv_float_nonzero by (cbn [float_value]; assumption).
    unfold float_div, np_random_laplace_float, np_random_laplace.
    cbn [float_value].
    destruct (Req_dec_T s 0) as [Z|Z].
    + subst s.
      assert (He : 0 < e).
      { destruct (Rtotal_order e 0) as [L|[L|L]]; [|contradiction|exact L].
        exfalso. apply H. split; [reflexivity|exact L]. }
      rewrite !signbit_finite_nonneg by lra. cbn [xorb float_value].
      rewrite signbit_finite_nonneg by lra.
      replace (0 / e) with 0 by (field; lra).
      destruct (Rlt_dec 0 0) as [N|_]; [lra|reflexivity].
    + cbn [signbit float_value].
      destruct (Rlt_dec (s / e) 0); reflexivity.
Qed.

(** C6, as stated, fails at the negative zero: it equals 0, and with it as
    sensitivity the scale is the negative zero, which the sampler refuses. *)
Lemma negative_zero_sensitivity_raises :
  float_value NegZero = 0 /\ 0 < 1 / 10 /\
  laplace_mechanism_float 14237 NegZero (Finite (1 / 10)) small_kernel
  = (Raise ValueError, small_kernel).
Proof.
  split; [reflexivity|]. split; [lra|].
  unfold laplace_mechanism_float, bind.
  rewrite truediv_float_nonzero by (simpl; lra).
  rewrite float_div_neg_zero by lra. reflexivity.
Qed.

(** C6 (amended): with a positive epsilon, a sensitivity that is the
    integer 0 or the positive zero gives the scale 0 and the mechanism
    returns the true value itself, on every call; a sensitivity that is the
    negative zero gives the scale [-0.0], and the sampler raises
    [ValueError]. *)
Theorem zero_sensitivity_by_sign (true_value eps : R) (k : Kernel) :
  0 < eps ->
  laplace_mechanism_float true_value (Finite 0) (Finite eps) k
    = (Return true_value, consume k)
  /\ laplace_mechanism_float true_value NegZero (Finite eps) k
     = (Raise ValueError, k).
Proof.
  intro He. split.
  - unfold laplace_mechanism_float, bind.
    rewrite truediv_float_nonzero by (simpl; lra).
    rewrite float_div_zero by lra.
    unfold np_random_laplace_float. rewrite signbit_finite_nonneg by lra.
    simpl float_value. rewrite random_laplace_zero_scale.
    unfold ret. f_equal. f_equal. ring.
  - unfold laplace_mechanism_float, bind.
    rewrite truediv_float_nonzero by (simpl; lra).
    rewrite float_div_neg_zero by lra. reflexivity.
Qed.

Lemma zero_sensitivity_by_sign_witness :
  0 < 1 / 10 /\
  laplace_mechanism_float 14237 (Finite 0) (Finite (1 / 10)) small_kernel
    = (Return 14237, consume small_kernel).
Proof.
  assert (H : 0 < 1 / 10) by lra.
  split; [exact H|].
  exact (proj1 (@zero_sensitivity_by_sign 14237 (1 / 10) small_kernel H)).
Defined.

(** ** Parameters outside the valid range *)

(** C4, as stated, fails: with a negative epsilon and a negative sensitivity
    the scale is positive and a number is returned. *)
Lemma negative_epsilon_returns_number :
  - (1 / 10) <= 0 /\
  laplace_mechanism 14237 (- 1) (- (1 / 10)) small_kernel =
    (Return (14237 + 10 * ln (1 / 2)), consume small_kernel).
Proof.
  split; [lra|].
  rewrite mechanism_nonneg_scale.
  - replace (- 1 / - (1 / 10)) with 10 by (field; lra).
    unfold small_kernel, fresh_kernel, next_variate, quarter_variates; simpl.
    now rewrite random_laplace_quarter.
  - lra.
  - replace (- 1 / - (1 / 10)) with 10 by (field; lra). lra.
Qed.

(** C4 (amended): the mechanism checks nothing itself.  With epsilon = 0 the
    division raises [ZeroDivisionError]; with epsilon < 0 and a positive
    sensitivity the sampler refuses the negative scale with [ValueError];
    in both cases the error comes back at once, with the kernel untouched
    and nothing drawn.  With epsilon < 0 and a negative sensitivity the
    scale is positive and the true value plus one sample is returned. *)
Theorem nonpositive_epsilon_behaviour
  (true_value sens eps : R) (k : Kernel) :
  eps <= 0 ->
  (eps = 0 ->
   laplace_mechanism true_value sens eps k = (Raise ZeroDivisionError, k))
  /\ (eps < 0 -> 0 < sens ->
      laplace_mechanism true_value sens eps k = (Raise ValueError, k))
  /\ (eps < 0 -> sens < 0 ->
      0 < sens / eps /\
      laplace_mechanism true_value sens eps k =
        (Return (true_value + random_laplace 0 (sens / eps) (next_variate k)),
         consume k)).
Proof.
  intros _. split; [|split].
  - intros ->. apply mechanism_zero_epsilon.
  - intros He Hs. apply mechanism_negative_scale; [lra|].
    now apply div_pos_neg.
  - intros He Hs. pose proof (div_neg_neg Hs He) as Hb.
    split; [exact Hb|]. apply mechanism_nonneg_scale; lra.
Qed.

Lemma nonpositive_epsilon_behaviour_witness :
  laplace_mechanism 14237 1 0 small_kernel =
    (Raise ZeroDivisionError, small_kernel)
  /\ laplace_mechanism 14237 1 (- (1 / 10)) small_kernel =
      (Raise ValueError, small_kernel).
Proof.
  assert (H0 : 0 <= 0) by lra.
  assert (H1 : - (1 / 10) <= 0) by lra.
  assert (H2 : - (1 / 10) < 0) by lra.
  assert (H3 : 0 < 1) by lra.
  split.
  - exact (proj1 (@nonpositive_epsilon_behaviour 14237 1 0 small_kernel H0)
             eq_refl).
  - exact (proj1 (proj2 (@nonpositive_epsilon_behaviour 14237 1 (- (1 / 10))
                           small_kernel H1)) H2 H3).
Defined.

(** C5, as stated, fails: with a negative sensitivity and a negative epsilon
    the mechanism returns a number. *)
Lemma negative_sensitivity_returns_number :
  - 2 < 0 /\
  laplace_mechanism 1 (- 2) (- 1) small_kernel =
    (Return (1 + 2 * ln (1 / 2)), consume small_kernel).
Proof.
  split; [lra|].
  rewrite mechanism_nonneg_scale.
  - replace (- 2 / - 1) with 2 by (field; lra).
    unfold small_kernel, fresh_kernel, next_variate, quarter_variates; simpl.
    now rewrite random_laplace_quarter.
  - lra.
  - replace (- 2 / - 1) with 2 by (field; lra). lra.
Qed.

(** C5 (amended): with a negative sensitivity and a positive epsilon the
    scale is negative and the sampler raises [ValueError]; with epsilon = 0
    the division raises [ZeroDivisionError]; with a negative epsilon the
    scale is positive and a number is returned.  Whatever the parameters, a
    returned number was never drawn with a negative scale. *)
Theorem negative_sensitivity_behaviour
  (true_value sens eps : R) (k : Kernel) :
  sens < 0 ->
  (0 < eps ->
   sens / eps < 0 /\
   laplace_mechanism true_value sens eps k = (Raise ValueError, k))
  /\ (eps = 0 ->
      laplace_mechanism true_value sens eps k = (Raise ZeroDivisionError, k))
  /\ (eps < 0 ->
      exists v : R,
        laplace_mechanism true_value sens eps k = (Return v, consume k))
  /\ (forall (v : R) (k' : Kernel),
      laplace_mechanism true_value sens eps k = (Return v, k') ->
      eps <> 0 /\ 0 <= sens / eps).
Proof.
  intro Hs. split; [|split; [|split]].
  - intro He. pose proof (div_neg_pos Hs He) as Hb.
    split; [exact Hb|]. apply mechanism_negative_scale; lra.
  - intros ->. apply mechanism_zero_epsilon.
  - intro He. pose proof (div_neg_neg Hs He) as Hb.
    eexists. apply mechanism_nonneg_scale; lra.
  - intros v k' H.
    destruct (Req_dec_T eps 0) as [E|E].
    + subst eps. rewrite mechanism_zero_epsilon in H. discriminate.
    + split; [exact E|].
      destruct (Rlt_le_dec (sens / eps) 0) as [L|L]; [|exact L].
      rewrite mechanism_negative_scale in H by assumption. discriminate.
Qed.

Lemma negative_sensitivity_behaviour_witness :
  - 1 < 0 /\ 0 < 1 / 10 /\
  - 1 / (1 / 10) < 0 /\
  laplace_mechanism 14237 (- 1) (1 / 10) small_kernel =
    (Raise ValueError, small_kernel).
Proof.
  assert (Hs : - 1 < 0) by lra.
  assert (He : 0 < 1 / 10) by lra.
  split; [exact Hs|]. split; [exact He|].
  exact (proj1 (@negative_sensitivity_behaviour 14237 (- 1) (1 / 10)
                  small_kernel Hs) He).
Defined.

(** ** Differential privacy of the mechanism *)

Lemma pow_2_53 : 2 ^ 53 = IZR (2 ^ 53).
Proof. rewrite pow_IZR. reflexivity. Qed.

Lemma smallest_variate_pos : 0 < smallest_variate.
Proof.
  unfold smallest_variate. apply Rinv_0_lt_compat. apply pow_lt. lra.
Qed.

Lemma smallest_variate_unit : 2 ^ 53 * smallest_variate = 1.
Proof.
  unfold smallest_variate. apply Rinv_r.
  apply Rgt_not_eq. apply pow_lt. lra.
Qed.

Lemma smallest_variate_small : smallest_variate < 1 / 4.
Proof.
  pose proof smallest_variate_pos as P.
  pose proof smallest_variate_unit as E.
  assert (B : 4 < 2 ^ 53).
  { rewrite pow_2_53. apply IZR_lt. reflexivity. }
  nra.
Qed.

Lemma deliverable_smallest : deliverable smallest_variate.
Proof.
  exists 1%Z. split; [split; reflexivity|]. ring.
Qed.

Lemma deliverable_range (U : R) :
  deliverable U -> smallest_variate <= U <= 1 - smallest_variate.
Proof.
  intros [n [[Hlo Hhi] ->]].
  pose proof smallest_variate_pos as P.
  pose proof smallest_variate_unit as E.
  rewrite pow_2_53 in E.
  assert (L : 1 <= IZR n) by (apply IZR_le; lia).
  assert (H : IZR n <= IZR (2 ^ 53) - 1).
  { rewrite <- minus_IZR. apply IZR_le. lia. }
  split; nra.
Qed.

Lemma ln_le_mono (x y : R) : 0 < x -> x <= y -> ln x <= ln y.
Proof.
  intros Hx Hxy. apply ln_le_exp; [exact Hx|].
  rewrite exp_ln by lra. exact Hxy.
Qed.

Lemma ln_nonpos (x : R) : 0 < x -> x <= 1 -> ln x <= 0.
Proof.
  intros Hx H1. apply ln_le_exp; [exact Hx|]. now rewrite exp_0.
Qed.

Lemma random_laplace_smallest (loc b : R) :
  random_laplace loc b smallest_variate
  = loc + b * ln (smallest_variate + smallest_variate).
Proof.
  pose proof smallest_variate_small. unfold random_laplace.
  destruct (Rle_dec (1 / 2) smallest_variate) as [H1|_]; [lra|reflexivity].
Qed.

(** On a variate the generator delivers, the sample is never below the one
    made from the smallest variate, nor above its mirror image. *)
Lemma random_laplace_bounds (b U : R) :
  0 < b -> smallest_variate <= U <= 1 - smallest_variate ->
  b * ln (smallest_variate + smallest_variate) <= random_laplace 0 b U
    <= - (b * ln (smallest_variate + smallest_variate)).
Proof.
  intros Hb [Hlo Hhi].
  pose proof smallest_variate_pos as P.
  pose proof smallest_variate_small as Q.
  assert (N : ln (smallest_variate + smallest_variate) <= 0)
    by (apply ln_nonpos; lra).
  unfold random_laplace. destruct (Rle_dec (1 / 2) U) as [Hu|Hu].
  - assert (L : ln (smallest_variate + smallest_variate)
                <= ln (2 - U - U)) by (apply ln_le_mono; lra).
    assert (L0 : ln (2 - U - U) <= 0) by (apply ln_nonpos; lra).
    split; nra.
  - assert (L : ln (smallest_variate + smallest_variate) <= ln (U + U))
      by (apply ln_le_mono; lra).
    assert (L0 : ln (U + U) <= 0) by (apply ln_nonpos; lra).
    split; nra.
Qed.

(** C2: the code does not keep the bound.  Take two true values, the
    smaller one below the other as the counts of two neighbouring tables
    are.  On the smallest variate the generator delivers, the mechanism at
    the smaller true value returns a number that the mechanism at the
    larger true value returns on no variate the generator delivers: an
    output of positive probability on one table and of probability 0 on its
    neighbour, for which no bound [exp epsilon] on the ratio holds. *)
Theorem laplace_mechanism_not_private
  (true_value true_value' sens eps : R) :
  0 < sens -> 0 < eps -> true_value' < true_value ->
  exists v : R,
    (forall k' : Kernel,
        next_variate k' = smallest_variate ->
        laplace_mechanism true_value' sens eps k' = (Return v, consume k'))
    /\ (forall k : Kernel,
        deliverable (next_variate k) ->
        fst (laplace_mechanism true_value sens eps k) <> Return v).
Proof.
  intros Hs He Hlt. pose proof (div_pos_pos Hs He) as Hb.
  exists (true_value'
          + sens / eps * ln (smallest_variate + smallest_variate)).
  split.
  - intros k' Hk. rewrite mechanism_nonneg_scale by lra.
    rewrite Hk, random_laplace_smallest. f_equal. f_equal. ring.
  - intros k Hd. rewrite mechanism_nonneg_scale by lra. simpl.
    intro H. inversion H as [E].
    pose proof (random_laplace_bounds Hb (deliverable_range Hd)) as [B _].
    lra.
Qed.

Lemma laplace_mechanism_not_private_witness :
  neighboring small_census adjacent_census /\
  deliverable smallest_variate /\
  age_query_value adjacent_census < age_query_value small_census /\
  exists v : R,
    (forall k' : Kernel,
        next_variate k' = smallest_variate ->
        laplace_mechanism (age_query_value adjacent_census) 1 (1 / 10) k'
        = (Return v, consume k'))
    /\ (forall k : Kernel,
        deliverable (next_variate k) ->
        fst (laplace_mechanism (age_query_value small_census) 1 (1 / 10) k)
        <> Return v).
Proof.
  assert (N : neighboring small_census adjacent_census).
  { apply neighboring_later, neighboring_here. discriminate. }
  assert (Hs : 0 < 1) by lra.
  assert (He : 0 < 1 / 10) by lra.
  assert (Hlt : age_query_value adjacent_census
                < age_query_value small_census).
  { unfold age_query_value. apply IZR_lt. reflexivity. }
  split; [exact N|]. split; [exact deliverable_smallest|].
  split; [exact Hlt|].
  exact (@laplace_mechanism_not_private (age_query_value small_census)
           (age_query_value adjacent_census) 1 (1 / 10) Hs He Hlt).
Defined.

(** ** The cells *)

Lemma cell_6_eval (k : Kernel) :
  cell_6 k = (Return (age_query (adult k)), k).
Proof. reflexivity. Qed.

Lemma count_adult_eval (p : Row -> bool) (k : Kernel) :
  count_adult p k = (Return (count_matching (adult k) p), k).
Proof. reflexivity. Qed.

Lemma cell_21_eval (k : Kernel) :
  cell_21 k =
  laplace_mechanism (age_query_value (adult k)) 1 (1 / 10) (with_parameters k).
Proof. reflexivity. Qed.

Lemma cell_28_eval (k : Kernel) :
  cell_28 k = (Return (target_query (adult k)), with_karries_row k).
Proof. reflexivity. Qed.

Lemma cell_29_eval (k : Kernel) :
  cell_29 k =
  laplace_mechanism (IZR (target_query (adult k))) 1 (1 / 10)
                    (with_karries_row (with_parameters k)).
Proof. reflexivity. Qed.

Example cell_28_small :
  cell_28 small_kernel = (Return 1%Z, with_karries_row small_kernel).
Proof. reflexivity. Qed.

Lemma ten_scale : 1 / (1 / 10) = 10.
Proof. field. Qed.

Lemma mechanism_scale_10 (true_value : R) (k : Kernel) :
  laplace_mechanism true_value 1 (1 / 10) k =
  (Return (true_value + random_laplace 0 10 (next_variate k)), consume k).
Proof.
  rewrite mechanism_nonneg_scale; rewrite ?ten_scale; try lra. reflexivity.
Qed.

(** In[21] and In[29] on the sample table, with the variate 1/4. *)
Example cell_21_small :
  cell_21 small_kernel =
  (Return (1 + 10 * ln (1 / 2)), consume (with_parameters small_kernel)).
Proof.
  rewrite cell_21_eval, mechanism_scale_10.
  unfold next_variate; simpl. now rewrite random_laplace_quarter.
Qed.

Example cell_29_small :
  cell_29 small_kernel =
  (Return (1 + 10 * ln (1 / 2)),
   consume (with_karries_row (with_parameters small_kernel))).
Proof.
  rewrite cell_29_eval, mechanism_scale_10.
  unfold next_variate; simpl. now rewrite random_laplace_quarter.
Qed.

Lemma mechanism_cases (true_value sens eps : R) (k : Kernel) :
  laplace_mechanism true_value sens eps k = (Raise ZeroDivisionError, k)
  \/ laplace_mechanism true_value sens eps k = (Raise ValueError, k)
  \/ laplace_mechanism true_value sens eps k =
     (Return (true_value + random_laplace 0 (sens / eps) (next_variate k)),
      consume k).
Proof.
  destruct (Req_dec_T eps 0) as [E|E].
  - left. subst. apply mechanism_zero_epsilon.
  - destruct (Rlt_le_dec (sens / eps) 0) as [L|L].
    + right; left. now apply mechanism_negative_scale.
    + right; right. now apply mechanism_nonneg_scale.
Qed.

(** ** Frame *)

(** C8: evaluating the counting query leaves the kernel as it was.
    Evaluating the mechanism leaves the table and every global name as they
    were and does not alter the generator's variates; a returned result has
    consumed exactly one variate and a raised error none.  The result of the
    mechanism depends on the kernel only through the variate it consumes,
    and a counting query gives the same result before and after any call of
    the mechanism.  No cell changes the table. *)
Theorem evaluation_frame :
  (forall (p : Row -> bool) (k : Kernel),
      count_adult p k = (Return (count_matching (adult k) p), k))
  /\ (forall k : Kernel, cell_6 k = (Return (age_query (adult k)), k))
  /\ (forall (true_value sens eps : R) (k : Kernel)
             (res : result R) (k' : Kernel),
      laplace_mechanism true_value sens eps k = (res, k') ->
      adult k' = adult k /\ karries_row k' = karries_row k /\
      sensitivity k' = sensitivity k /\ epsilon k' = epsilon k /\
      variates (np_random k') = variates (np_random k) /\
      match res with
      | Return _ => k' = consume k
      | Raise _ => k' = k
      end)
  /\ (forall (true_value sens eps : R) (k1 k2 : Kernel),
      next_variate k1 = next_variate k2 ->
      fst (laplace_mechanism true_value sens eps k1) =
      fst (laplace_mechanism true_value sens eps k2))
  /\ (forall (true_value sens eps : R) (p : Row -> bool) (k : Kernel),
      fst (count_adult p (snd (laplace_mechanism true_value sens eps k))) =
      fst (count_adult p k))
  /\ (forall k : Kernel,
      adult (snd (cell_21 k)) = adult k /\
      adult (snd (cell_28 k)) = adult k /\
      adult (snd (cell_29 k)) = adult k /\
      np_random (snd (cell_28 k)) = np_random k).
Proof.
  assert (F : forall tv s e k res k',
             laplace_mechanism tv s e k = (res, k') ->
             adult k' = adult k /\ karries_row k' = karries_row k /\
             sensitivity k' = sensitivity k /\ epsilon k' = epsilon k /\
             variates (np_random k') = variates (np_random k) /\
             match res with
             | Return _ => k' = consume k
             | Raise _ => k' = k
             end).
  { intros tv s e k res k' H.
    destruct (mechanism_cases tv s e k) as [E|[E|E]];
      rewrite E in H; inversion H; subst; repeat split; reflexivity. }
  split; [exact count_adult_eval|].
  split; [exact cell_6_eval|].
  split; [exact F|].
  split; [|split].
  - intros tv s e k1 k2 Hv.
    destruct (Req_dec_T e 0) as [E|E].
    + subst. now rewrite !mechanism_zero_epsilon.
    + destruct (Rlt_le_dec (s / e) 0) as [L|L].
      * now rewrite !mechanism_negative_scale.
      * rewrite !mechanism_nonneg_scale by assumption. simpl. now rewrite Hv.
  - intros tv s e p k.
    destruct (laplace_mechanism tv s e k) as [res k'] eqn:E.
    apply F in E. destruct E as [Ha _].
    rewrite !count_adult_eval. simpl. now rewrite Ha.
  - intro k. rewrite cell_21_eval, cell_28_eval, cell_29_eval.
    repeat split.
    + destruct (laplace_mechanism _ 1 (1 / 10) (with_parameters k))
        as [res k'] eqn:E.
      apply F in E. simpl. destruct E as [Ha _]. exact Ha.
    + destruct (laplace_mechanism _ 1 (1 / 10)
                  (with_karries_row (with_parameters k)))
        as [res k'] eqn:E.
      apply F in E. simpl. destruct E as [Ha _]. exact Ha.
Qed.

(** * Further properties of the cells *)

(** ** Selection *)

Local Open Scope Z_scope.

Lemma filter_both (p q : Row -> bool) (df : DataFrame) :
  filter q (filter p df) = filter (both p q) df.
Proof.
  induction df as [|r df IH]; [reflexivity|].
  unfold both in *. simpl. destruct (p r); simpl; [|exact IH].
  destruct (q r); now rewrite IH.
Qed.

Lemma both_comm_filter (p q : Row -> bool) (df : DataFrame) :
  filter (both p q) df = filter (both q p) df.
Proof.
  apply filter_ext. intro r. unfold both. apply andb_comm.
Qed.

Lemma count_two_stage_both (p q : Row -> bool) (df : DataFrame) :
  count_matching (getitem df (column p df)) q = count_matching df (both p q).
Proof.
  rewrite getitem_column, !count_matching_filter. now rewrite filter_both.
Qed.

Lemma target_query_both (df : DataFrame) :
  target_query df = count_matching df (both is_karrie target_le_50K).
Proof.
  unfold target_query. rewrite target_count_count.
  unfold select_karrie. rewrite name_mask. apply count_two_stage_both.
Qed.

Lemma target_query_change (x x' : DataFrame) :
  neighboring x x' -> Z.abs (target_query x - target_query x') <= 1.
Proof.
  intro N. rewrite !target_query_both. now apply neighboring_change.
Qed.

(** X1: a row is in the selection [df[mask]] exactly when it is in the
    frame and its mask entry holds; the selection never has more rows than
    the frame. *)
Theorem selection_membership (p : Row -> bool) (df : DataFrame) (r : Row) :
  (In r (getitem df (column p df)) <-> In r df /\ p r = true)
  /\ shape0 (getitem df (column p df)) <= shape0 df.
Proof.
  split.
  - rewrite getitem_column. apply filter_In.
  - pose proof (count_matching_bounds p df) as H.
    unfold count_matching in H. lia.
Qed.

(** X2: selections compose.  Selecting by [p] and then by [q] gives the
    frame selected by both at once, the order of the two selections does not
    matter, and selecting twice by the same mask changes nothing. *)
Theorem selection_composes (p q : Row -> bool) (df : DataFrame) :
  getitem (getitem df (column p df)) (column q (getitem df (column p df)))
    = getitem df (column (both p q) df)
  /\ getitem (getitem df (column p df)) (column q (getitem df (column p df)))
     = getitem (getitem df (column q df)) (column p (getitem df (column q df)))
  /\ getitem (getitem df (column p df)) (column p (getitem df (column p df)))
     = getitem df (column p df).
Proof.
  rewrite !getitem_column, !filter_both. split; [reflexivity|]. split.
  - apply both_comm_filter.
  - apply filter_ext. intro r. unfold both. now destruct (p r).
Qed.

Lemma count_matching_app (p : Row -> bool) (x y : DataFrame) :
  count_matching (x ++ y) p = count_matching x p + count_matching y p.
Proof.
  induction x as [|r x IH]; simpl app.
  - rewrite count_matching_nil. lia.
  - rewrite !count_matching_cons, IH. lia.
Qed.

(** X3: counts add up.  The count over two tables put end to end is the sum
    of the two counts, and in any table the rows that match and the rows
    that do not match make up all the rows. *)
Theorem count_matching_additive :
  (forall (p : Row -> bool) (x y : DataFrame),
      count_matching (x ++ y) p = count_matching x p + count_matching y p)
  /\ (forall (p : Row -> bool) (df : DataFrame),
      count_matching df p + count_matching df (fun r => negb (p r))
      = shape0 df).
Proof.
  split.
  - exact count_matching_app.
  - intros p df. induction df as [|r df IH].
    + reflexivity.
    + rewrite !count_matching_cons. unfold shape0 in *.
      simpl List.length. destruct (p r); simpl negb; lia.
Qed.

(** X4: adding one record to a table, at any position, raises the count by
    1 when the record matches the predicate and leaves it as it is
    otherwise; removing a record does the reverse.  The counting query has
    sensitivity 1 for tables that differ by the presence of one record,
    too. *)
Theorem count_matching_insert
  (p : Row -> bool) (before after : DataFrame) (r : Row) :
  count_matching (before ++ r :: after) p
    = count_matching (before ++ after) p + (if p r then 1 else 0)
  /\ 0 <= count_matching (before ++ r :: after) p
          - count_matching (before ++ after) p <= 1.
Proof.
  rewrite !count_matching_app, count_matching_cons.
  destruct (p r); lia.
Qed.

(** X5: the two-stage query of In[28] is one counting query, for the
    predicate "named Karrie Trusslove and Target <=50K", so between
    neighbouring tables its result changes by at most 1: the sensitivity 1
    that In[29] uses for it is a valid bound. *)
Theorem target_query_sensitivity :
  (forall adult : DataFrame,
      target_query adult = count_matching adult (both is_karrie target_le_50K))
  /\ (forall x x' : DataFrame,
      neighboring x x' -> Z.abs (target_query x - target_query x') <= 1).
Proof.
  split; [exact target_query_both|exact target_query_change].
Qed.

Lemma target_query_sensitivity_witness :
  neighboring small_census flipped_census /\
  target_query small_census = 1 /\ target_query flipped_census = 0 /\
  Z.abs (target_query small_census - target_query flipped_census) <= 1.
Proof.
  assert (N : neighboring small_census flipped_census).
  { apply neighboring_here. discriminate. }
  split; [exact N|]. split; [reflexivity|]. split; [reflexivity|].
  exact (proj2 target_query_sensitivity _ _ N).
Defined.

(** X6: a weaker predicate counts at least as many rows.  Raising the age
    threshold of the query of In[6] never raises its result. *)
Theorem count_matching_monotone :
  (forall (p q : Row -> bool) (df : DataFrame),
      (forall r, In r df -> p r = true -> q r = true) ->
      count_matching df p <= count_matching df q)
  /\ (forall (lo hi : Z) (df : DataFrame),
      lo <= hi ->
      shape0 (getitem df (ge_scalar (column Age df) hi))
      <= shape0 (getitem df (ge_scalar (column Age df) lo))).
Proof.
  assert (G : forall (p q : Row -> bool) (df : DataFrame),
             (forall r, In r df -> p r = true -> q r = true) ->
             count_matching df p <= count_matching df q).
  { intros p q df. induction df as [|r df IH]; intro H.
    - rewrite !count_matching_nil. lia.
    - rewrite !count_matching_cons.
      assert (IH' : count_matching df p <= count_matching df q).
      { apply IH. intros r0 Hin. apply H. now right. }
      specialize (H r (or_introl eq_refl)).
      destruct (p r) eqn:Ep; [rewrite (H eq_refl); lia|].
      destruct (q r); lia. }
  split; [exact G|].
  intros lo hi df Hle.
  assert (E : forall t, ge_scalar (column Age df) t
                        = column (fun r => Z.geb (Age r) t) df).
  { intro t. unfold ge_scalar, column. now rewrite map_map. }
  rewrite !E.
  apply (G (fun r => Z.geb (Age r) hi) (fun r => Z.geb (Age r) lo)).
  intros r _. rewrite !Z.geb_leb, !Z.leb_le. lia.
Qed.

Lemma count_matching_monotone_witness :
  40 <= 50 /\
  shape0 (getitem small_census (ge_scalar (column Age small_census) 50))
  <= shape0 (getitem small_census (ge_scalar (column Age small_census) 40)).
Proof.
  assert (H : 40 <= 50) by lia.
  split; [exact H|].
  exact (proj2 count_matching_monotone 40 50 small_census H).
Defined.

(** ** The cells on any kernel *)

Local Open Scope R_scope.

Lemma cell_21_value (k : Kernel) :
  cell_21 k =
  (Return (IZR (age_query (adult k)) + random_laplace 0 10 (next_variate k)),
   consume (with_parameters k)).
Proof. rewrite cell_21_eval, mechanism_scale_10. reflexivity. Qed.

Lemma cell_29_value (k : Kernel) :
  cell_29 k =
  (Return (IZR (target_query (adult k))
           + random_laplace 0 10 (next_variate k)),
   consume (with_karries_row (with_parameters k))).
Proof. rewrite cell_29_eval, mechanism_scale_10. reflexivity. Qed.

(** X7: once the loading cell has run, In[21] and In[29] do not depend on
    what [sensitivity], [epsilon] and [karries_row] hold when they start,
    unbound or bound to anything, an earlier [epsilon = 0] included: each
    binds the names it reads before reading them, so its scale is 10, it
    raises nothing, and it returns the count of its query on the table
    plus one sample of scale 10, leaving the names bound to 1, 0.1 and the
    selection by name. *)
Theorem releases_rebind_names
  (df : DataFrame) (kr : option DataFrame) (s e : option R)
  (g : RandomState) :
  cell_21 (mkKernel df kr s e g)
    = (Return (IZR (age_query df)
               + random_laplace 0 10 (variates g (consumed g))),
       mkKernel df kr (Some 1) (Some (1 / 10)) (advance g))
  /\ cell_29 (mkKernel df kr s e g)
     = (Return (IZR (target_query df)
                + random_laplace 0 10 (variates g (consumed g))),
        mkKernel df (Some (select_karrie df)) (Some 1) (Some (1 / 10))
                 (advance g)).
Proof.
  rewrite cell_21_value, cell_29_value. split; reflexivity.
Qed.

(** In[21] on the two sample tables: the release made from the smallest
    variate on the table with the smaller count is no release of the other
    table on any variate the generator delivers. *)
Lemma cell_21_distinguishes_neighbours :
  exists v : R,
    fst (cell_21 (fresh_kernel adjacent_census smallest_variates)) = Return v
    /\ forall k : Kernel,
         adult k = small_census -> deliverable (next_variate k) ->
         fst (cell_21 k) <> Return v.
Proof.
  exists (0 + 10 * ln (smallest_variate + smallest_variate)). split.
  - rewrite cell_21_value. unfold next_variate. cbn -[random_laplace ln].
    rewrite random_laplace_smallest. f_equal.
    change (IZR (age_query adjacent_census)) with 0. ring.
  - intros k Ha Hd. rewrite cell_21_value, Ha. simpl fst.
    change (IZR (age_query small_census)) with 1.
    intro H. inversion H as [E].
    assert (Hb : 0 < 10) by lra.
    pose proof (random_laplace_bounds Hb (deliverable_range Hd)) as [B _].
    lra.
Qed.

Lemma nth_variate_0 (k : Kernel) : nth_variate k 0 = next_variate k.
Proof. unfold nth_variate, next_variate. now rewrite Nat.add_0_r. Qed.

Lemma nth_variate_1 (k : Kernel) :
  nth_variate k 1 =
  variates (np_random k) (Datatypes.S (consumed (np_random k))).
Proof. unfold nth_variate. now rewrite Nat.add_1_r. Qed.

(** X8: running the four cells in notebook order never raises.  The four
    results are the age count, the age count plus a sample, the target
    count and the target count plus a sample; the two samples are made from
    two successive variates of the generator, so the second release does
    not reuse the noise of the first.  Afterwards the table is as it was,
    the three names are bound, and exactly two variates are consumed. *)
Theorem run_notebook_result (k : Kernel) :
  exists k' : Kernel,
    run_notebook k =
      (Return (age_query (adult k),
               IZR (age_query (adult k))
               + random_laplace 0 10 (nth_variate k 0),
               target_query (adult k),
               IZR (target_query (adult k))
               + random_laplace 0 10 (nth_variate k 1)),
       k')
    /\ adult k' = adult k
    /\ karries_row k' = Some (select_karrie (adult k))
    /\ sensitivity k' = Some 1
    /\ epsilon k' = Some (1 / 10)
    /\ variates (np_random k') = variates (np_random k)
    /\ consumed (np_random k')
       = Datatypes.S (Datatypes.S (consumed (np_random k))).
Proof.
  eexists. split.
  - unfold run_notebook, bind.
    rewrite cell_6_eval, cell_21_value, cell_28_eval, cell_29_value.
    rewrite nth_variate_0, nth_variate_1. reflexivity.
  - repeat split; reflexivity.
Qed.

(** ** Privacy and accuracy of the two releases *)

Lemma random_laplace_mirror (loc scale U : R) :
  random_laplace loc scale (1 - U) = 2 * loc - random_laplace loc scale U.
Proof.
  unfold random_laplace.
  destruct (Rle_dec (1 / 2) (1 - U)) as [H1|H1];
    destruct (Rle_dec (1 / 2) U) as [H2|H2].
  - assert (E : U = 1 / 2) by lra. subst U.
    replace (2 - (1 - 1 / 2) - (1 - 1 / 2)) with 1 by lra.
    replace (2 - 1 / 2 - 1 / 2) with 1 by lra. rewrite ln_1. ring.
  - replace (2 - (1 - U) - (1 - U)) with (U + U) by ring. ring.
  - replace (1 - U + (1 - U)) with (2 - U - U) by ring. ring.
  - lra.
Qed.

Lemma random_laplace_scale (scale U : R) :
  random_laplace 0 scale U = scale * random_laplace 0 1 U.
Proof. unfold random_laplace. destruct (Rle_dec (1 / 2) U); ring. Qed.

Lemma laplace_cdf_mirror (loc b t : R) :
  0 < b -> laplace_cdf loc b (2 * loc - t) = 1 - laplace_cdf loc b t.
Proof.
  intro Hb. unfold laplace_cdf.
  destruct (Rlt_dec (2 * loc - t) loc) as [H1|H1];
    destruct (Rlt_dec t loc) as [H2|H2]; try lra.
  - replace ((2 * loc - t - loc) / b) with (- (t - loc) / b) by (field; lra).
    lra.
  - replace (- (2 * loc - t - loc) / b) with ((t - loc) / b) by (field; lra).
    lra.
  - assert (E : t = loc) by lra. subst t.
    replace (- (2 * loc - loc - loc) / b) with 0 by (field; lra).
    replace (- (loc - loc) / b) with 0 by (field; lra).
    rewrite exp_0. lra.
Qed.

(** The strict form of the quantile characterisation. *)
Lemma random_laplace_lt (loc b U t : R) :
  0 < b -> 0 < U < 1 ->
  (random_laplace loc b U < t <-> U < laplace_cdf loc b t).
Proof.
  intros Hb HU.
  assert (HU' : 0 < 1 - U < 1) by lra.
  pose proof (@random_laplace_le b Hb loc (1 - U) (2 * loc - t) HU') as Q.
  rewrite random_laplace_mirror, laplace_cdf_mirror in Q by assumption.
  split; intro H.
  - destruct (Rlt_le_dec U (laplace_cdf loc b t)) as [L|L]; [exact L|].
    assert (2 * loc - random_laplace loc b U <= 2 * loc - t)
      by (apply Q; lra).
    lra.
  - destruct (Rlt_le_dec (random_laplace loc b U) t) as [L|L]; [exact L|].
    assert (1 - U <= 1 - laplace_cdf loc b t) by (apply Q; lra).
    lra.
Qed.

Lemma laplace_cdf_nonneg_side (b t : R) :
  0 <= t -> laplace_cdf 0 b t = 1 - exp (- t / b) / 2.
Proof.
  intro Ht. unfold laplace_cdf.
  destruct (Rlt_dec t 0) as [N|_]; [lra|].
  now replace (t - 0) with t by ring.
Qed.

Lemma laplace_cdf_at_zero (tv b : R) :
  0 < b -> 0 <= tv -> laplace_cdf tv b 0 = exp (- tv / b) / 2.
Proof.
  intros Hb Ht. unfold laplace_cdf.
  destruct (Rlt_dec 0 tv) as [P|N].
  - now replace (0 - tv) with (- tv) by ring.
  - assert (E : tv = 0) by lra. subst tv.
    replace (- (0 - 0) / b) with 0 by (field; lra).
    replace (- 0 / b) with 0 by (field; lra).
    rewrite exp_0. lra.
Qed.

Lemma Rabs_le_between (a t : R) : Rabs a <= t <-> - t <= a <= t.
Proof.
  unfold Rabs. destruct (Rcase_abs a); split; intro; lra.
Qed.

(** X10: accuracy of a release.  For positive sensitivity and epsilon the
    released value is within [t] of the true value exactly when the uniform
    variate lies in the middle interval from [exp (-t/b) / 2] to
    [1 - exp (-t/b) / 2], with [b = sensitivity/epsilon]: an interval of
    length [1 - exp (-t/b)]. *)
Theorem release_accuracy (true_value sens eps t : R) (k : Kernel) :
  0 < sens -> 0 < eps -> 0 <= t -> 0 < next_variate k < 1 ->
  exists v : R,
    laplace_mechanism true_value sens eps k = (Return v, consume k) /\
    (Rabs (v - true_value) <= t <->
     exp (- t / (sens / eps)) / 2 <= next_variate k
       <= 1 - exp (- t / (sens / eps)) / 2).
Proof.
  intros Hs He Ht Hu.
  pose proof (div_pos_pos Hs He) as Hb.
  exists (true_value + random_laplace 0 (sens / eps) (next_variate k)).
  split; [apply mechanism_nonneg_scale; lra|].
  generalize dependent (next_variate k). intros U Hu.
  generalize dependent (sens / eps). intros b Hb.
  replace (true_value + random_laplace 0 b U - true_value)
    with (random_laplace 0 b U) by ring.
  pose proof (@random_laplace_le b Hb 0 U t Hu) as Hi.
  rewrite laplace_cdf_nonneg_side in Hi by assumption.
  assert (HU' : 0 < 1 - U < 1) by lra.
  pose proof (@random_laplace_le b Hb 0 (1 - U) t HU') as Lo.
  rewrite random_laplace_mirror, laplace_cdf_nonneg_side in Lo by assumption.
  split.
  - intro A. apply Rabs_le_between in A. split.
    + assert (1 - U <= 1 - exp (- t / b) / 2) by (apply Lo; lra). lra.
    + apply Hi. lra.
  - intros [A1 A2]. apply Rabs_le_between. split.
    + assert (2 * 0 - random_laplace 0 b U <= t) by (apply Lo; lra). lra.
    + apply Hi. exact A2.
Qed.

Lemma release_accuracy_witness :
  exists v : R,
    laplace_mechanism 14237 1 (1 / 10) small_kernel
      = (Return v, consume small_kernel) /\
    (Rabs (v - 14237) <= 50 <->
     exp (- 50 / (1 / (1 / 10))) / 2 <= next_variate small_kernel
       <= 1 - exp (- 50 / (1 / (1 / 10))) / 2).
Proof.
  apply (@release_accuracy 14237 1 (1 / 10) 50 small_kernel); try lra.
  unfold small_kernel, fresh_kernel, next_variate, quarter_variates; simpl.
  lra.
Defined.

(** X11: the noise is symmetric.  On the mirrored variate [1 - U] the
    released value lies as far above the true value as it lies below it on
    [U]; on the variate 1/2 the released value is the true value itself. *)
Theorem release_symmetric (true_value sens eps : R) (k k' : Kernel) :
  0 < sens -> 0 < eps ->
  next_variate k' = 1 - next_variate k ->
  exists v v' : R,
    fst (laplace_mechanism true_value sens eps k) = Return v /\
    fst (laplace_mechanism true_value sens eps k') = Return v' /\
    v' - true_value = - (v - true_value) /\
    (next_variate k = 1 / 2 -> v = true_value).
Proof.
  intros Hs He Hm.
  pose proof (div_pos_pos Hs He) as Hb.
  exists (true_value + random_laplace 0 (sens / eps) (next_variate k)).
  exists (true_value + random_laplace 0 (sens / eps) (next_variate k')).
  rewrite !mechanism_nonneg_scale by lra. simpl.
  split; [reflexivity|]. split; [reflexivity|].
  rewrite Hm, random_laplace_mirror. split; [ring|].
  intros ->. unfold random_laplace.
  destruct (Rle_dec (1 / 2) (1 / 2)) as [_|N]; [|lra].
  replace (2 - 1 / 2 - 1 / 2) with 1 by lra. rewrite ln_1. ring.
Qed.

Lemma release_symmetric_witness :
  exists v v' : R,
    fst (laplace_mechanism 1 1 (1 / 10) small_kernel) = Return v /\
    fst (laplace_mechanism 1 1 (1 / 10) mirrored_kernel) = Return v' /\
    v' - 1 = - (v - 1) /\
    (next_variate small_kernel = 1 / 2 -> v = 1).
Proof.
  apply (@release_symmetric 1 1 (1 / 10) small_kernel mirrored_kernel);
    try lra.
  unfold mirrored_kernel, small_kernel, fresh_kernel, next_variate,
    three_quarter_variates, quarter_variates; simpl. lra.
Defined.

(** X12: the noise is proportional to sensitivity/epsilon.  On the same
    variate, the error of the release times epsilon is the same for every
    positive epsilon, so a smaller epsilon gives an error that is larger in
    the same proportion, and never a smaller one. *)
Theorem noise_scales_with_epsilon
  (true_value sens eps1 eps2 : R) (k : Kernel) :
  0 < sens -> 0 < eps1 -> 0 < eps2 ->
  exists v1 v2 : R,
    fst (laplace_mechanism true_value sens eps1 k) = Return v1 /\
    fst (laplace_mechanism true_value sens eps2 k) = Return v2 /\
    eps1 * (v1 - true_value) = eps2 * (v2 - true_value) /\
    (eps1 <= eps2 -> Rabs (v2 - true_value) <= Rabs (v1 - true_value)).
Proof.
  intros Hs H1 H2.
  pose proof (div_pos_pos Hs H1) as Hb1.
  pose proof (div_pos_pos Hs H2) as Hb2.
  set (n := random_laplace 0 1 (next_variate k)).
  exists (true_value + sens / eps1 * n), (true_value + sens / eps2 * n).
  rewrite !mechanism_nonneg_scale by lra. simpl.
  rewrite !(random_laplace_scale (sens / _)). fold n.
  split; [reflexivity|]. split; [reflexivity|].
  split; [field; lra|].
  intro Hle.
  replace (true_value + sens / eps2 * n - true_value)
    with (sens / eps2 * n) by ring.
  replace (true_value + sens / eps1 * n - true_value)
    with (sens / eps1 * n) by ring.
  rewrite !Rabs_mult, !(Rabs_pos_eq (sens / _)) by lra.
  apply Rmult_le_compat_r; [apply Rabs_pos|].
  unfold Rdiv. apply Rmult_le_compat_l; [lra|].
  now apply Rinv_le_contravar.
Qed.

Lemma noise_scales_with_epsilon_witness :
  exists v1 v2 : R,
    fst (laplace_mechanism 14237 1 (1 / 10) small_kernel) = Return v1 /\
    fst (laplace_mechanism 14237 1 1 small_kernel) = Return v2 /\
    1 / 10 * (v1 - 14237) = 1 * (v2 - 14237) /\
    (1 / 10 <= 1 -> Rabs (v2 - 14237) <= Rabs (v1 - 14237)).
Proof.
  apply (@noise_scales_with_epsilon 14237 1 (1 / 10) 1 small_kernel); lra.
Defined.

(** X13: the release is not clamped.  For a true value that is not
    negative, as every count is, the released value is negative exactly
    when the uniform variate is below [exp (-true_value/b) / 2], with
    [b = sensitivity/epsilon]; that threshold is positive, so negative
    releases occur. *)
Theorem release_can_be_negative (true_value sens eps : R) (k : Kernel) :
  0 <= true_value -> 0 < sens -> 0 < eps -> 0 < next_variate k < 1 ->
  exists v : R,
    laplace_mechanism true_value sens eps k = (Return v, consume k) /\
    (v < 0 <-> next_variate k < exp (- true_value / (sens / eps)) / 2) /\
    0 < exp (- true_value / (sens / eps)) / 2.
Proof.
  intros Ht Hs He Hu.
  pose proof (div_pos_pos Hs He) as Hb.
  exists (true_value + random_laplace 0 (sens / eps) (next_variate k)).
  split; [apply mechanism_nonneg_scale; lra|].
  split.
  - rewrite random_laplace_shift.
    rewrite <- (laplace_cdf_at_zero Hb Ht).
    now apply random_laplace_lt.
  - pose proof (exp_pos (- true_value / (sens / eps))). lra.
Qed.

Lemma release_can_be_negative_witness :
  exists v : R,
    laplace_mechanism 1 1 (1 / 10) small_kernel
      = (Return v, consume small_kernel) /\
    (v < 0 <-> next_variate small_kernel < exp (- 1 / (1 / (1 / 10))) / 2) /\
    0 < exp (- 1 / (1 / (1 / 10))) / 2.
Proof.
  apply (@release_can_be_negative 1 1 (1 / 10) small_kernel); try lra.
  unfold small_kernel, fresh_kernel, next_variate, quarter_variates; simpl.
  lra.
Defined.

(** ** What the two answers reveal *)

Local Open Scope Z_scope.

(** X14: without noise the single-person query discloses the person's
    target.  When the table holds exactly one row with the queried name,
    In[28] returns 1 exactly when that row's target is "<=50K" and 0
    exactly when it is anything else. *)
Theorem target_query_discloses (adult : DataFrame) (r : Row) :
  select_karrie adult = [r] ->
  (target_query adult = 1 <-> Target r = "<=50K"%string)
  /\ (target_query adult = 0 <-> Target r <> "<=50K"%string).
Proof.
  intro H. unfold target_query. rewrite H.
  unfold target_count, eq_scalar, column, shape0. simpl.
  destruct (String.eqb (Target r) "<=50K") eqn:E.
  - apply String.eqb_eq in E. simpl. split; split; intro H0;
      try reflexivity; try exact E; try discriminate.
    contradiction.
  - apply String.eqb_neq in E. simpl. split; split; intro H0;
      try reflexivity; try exact E; try discriminate.
    contradiction.
Qed.

Lemma target_query_discloses_witness :
  select_karrie small_census = [karrie_low] /\
  (target_query small_census = 1 <-> Target karrie_low = "<=50K"%string).
Proof.
  assert (H : select_karrie small_census = [karrie_low]) by reflexivity.
  split; [exact H|].
  exact (proj1 (@target_query_discloses small_census karrie_low H)).
Defined.

Local Open Scope R_scope.

Lemma laplace_cdf_of_random (loc b U : R) :
  0 < b -> 0 < U < 1 -> laplace_cdf loc b (random_laplace loc b U) = U.
Proof.
  intros Hb Hu.
  pose proof (@random_laplace_le b Hb loc U (random_laplace loc b U) Hu) as Le.
  pose proof (@random_laplace_lt loc b U (random_laplace loc b U) Hb Hu) as Lt.
  assert (U <= laplace_cdf loc b (random_laplace loc b U)) by (apply Le; lra).
  destruct (Rlt_le_dec U (laplace_cdf loc b (random_laplace loc b U)))
    as [L|L]; [|lra].
  apply Lt in L. lra.
Qed.

Lemma ln_smallest_variate : ln smallest_variate = - (53 * ln 2).
Proof.
  unfold smallest_variate.
  rewrite ln_Rinv by (apply pow_lt; lra).
  rewrite ln_pow by lra. rewrite INR_IZR_INZ. reflexivity.
Qed.

(** X15: with the variates the generator delivers the noise is bounded.
    For positive sensitivity and epsilon the released value stays within
    [53 * ln 2] scales (about 367 for the scale 10 of In[21] and In[29]) of
    the true value, so an observed answer rules out every true value
    farther away than that; and the variate is recovered from the release
    by the Laplace distribution function at the true value. *)
Theorem release_bounded_support (true_value sens eps : R) (k : Kernel) :
  0 < sens -> 0 < eps -> deliverable (next_variate k) ->
  exists v : R,
    laplace_mechanism true_value sens eps k = (Return v, consume k) /\
    Rabs (v - true_value) <= sens / eps * (53 * ln 2) /\
    laplace_cdf true_value (sens / eps) v = next_variate k.
Proof.
  intros Hs He Hd. pose proof (div_pos_pos Hs He) as Hb.
  pose proof (deliverable_range Hd) as Hr.
  pose proof smallest_variate_pos as P.
  exists (true_value + random_laplace 0 (sens / eps) (next_variate k)).
  split; [apply mechanism_nonneg_scale; lra|].
  split.
  - replace (true_value + random_laplace 0 (sens / eps) (next_variate k)
             - true_value)
      with (random_laplace 0 (sens / eps) (next_variate k)) by ring.
    pose proof (random_laplace_bounds Hb Hr) as [B1 B2].
    assert (L : ln smallest_variate
                <= ln (smallest_variate + smallest_variate))
      by (apply ln_le_mono; lra).
    rewrite ln_smallest_variate in L.
    apply Rabs_le_between. split; nra.
  - rewrite random_laplace_shift. apply laplace_cdf_of_random; [exact Hb|].
    lra.
Qed.

Lemma release_bounded_support_witness :
  deliverable (next_variate (fresh_kernel small_census smallest_variates)) /\
  exists v : R,
    laplace_mechanism 1 1 (1 / 10)
      (fresh_kernel small_census smallest_variates)
    = (Return v, consume (fresh_kernel small_census smallest_variates)) /\
    Rabs (v - 1) <= 1 / (1 / 10) * (53 * ln 2) /\
    laplace_cdf 1 (1 / (1 / 10)) v
    = next_variate (fresh_kernel small_census smallest_variates).
Proof.
  assert (Hs : 0 < 1) by lra.
  assert (He : 0 < 1 / 10) by lra.
  assert (Hd : deliverable
                 (next_variate (fresh_kernel small_census smallest_variates)))
    by exact deliverable_smallest.
  split; [exact Hd|].
  exact (@release_bounded_support 1 1 (1 / 10)
           (fresh_kernel small_census smallest_variates) Hs He Hd).
Defined.
